(** * ruqe-ts: the Option and Result containers and the Panic signal

    A shallow embedding of [src/panic.ts], [src/option.ts] and
    [src/result.ts].

    Container instances are objects allocated by [new]; they live in a
    store and are passed around by reference.  Methods receive the
    reference [this] and read the fields [_value] and [_error] from the
    store.  Callbacks handed to [match] are arbitrary computations: they may
    read and change the state of the program and they may throw. *)

From stdpp Require Import base option list strings numbers.

Open Scope string_scope.
Open Scope list_scope.

(** ** Run-time values *)

(** Classes of the built-in [Error] family that occur in the library:
    [Error] itself, the engine's [TypeError], and [Panic], which
    [panic.ts] declares as [class Panic extends Error]. *)
Inductive ErrorClass : Type :=
| ErrorC
| TypeErrorC
| PanicC.

(** An instance of [Error] or of one of its subclasses.  The [stack]
    property, which [Error.captureStackTrace] fills on V8, is left out. *)
Record ErrorObject : Type := mkError {
  error_class : ErrorClass;
  name : string;
  message : string
}.

(** A location of the object store. *)
Definition loc : Type := nat.

(** The values a program can hold in a container, throw, or return:
    primitives (of the numbers, the integers), error objects, and
    references to container instances.  The library never computes on a
    payload; it stores it and hands it back. *)
Inductive value : Type :=
| VUndefined
| VNull
| VBool (b : bool)
| VNumber (n : Z)
| VString (s : string)
| VErrorObj (e : ErrorObject)
| VRef (l : loc).

(** [x instanceof Panic] *)
Definition instanceofPanic (x : value) : bool :=
  match x with
  | VErrorObj e =>
      match error_class e with
      | PanicC => true
      | _ => false
      end
  | _ => false
  end.

(** [x instanceof Error]: true for [Error] and for every subclass of it. *)
Definition instanceofError (x : value) : bool :=
  match x with
  | VErrorObj _ => true
  | _ => false
  end.

(** ** panic.ts *)

(** [new Error(message)] *)
Definition new_Error (msg : string) : ErrorObject :=
  {| error_class := ErrorC; name := "Error"; message := msg |}.

(** [new Panic(message)]: [super(message)], then [this.name = 'Panic']. *)
Definition new_Panic (msg : string) : ErrorObject :=
  let this := new_Error msg in
  {| error_class := PanicC; name := "Panic"; message := message this |}.

(** What the engine throws when a method is called on something that does
    not have it. *)
Definition type_error : value :=
  VErrorObj {| error_class := TypeErrorC; name := "TypeError";
               message := "not a function" |}.

(** ** Objects and the store *)

(** The two concrete subclasses of [Option<T>]. *)
Inductive OptionClass : Type :=
| SomeC
| NoneC.

(** The two concrete subclasses of [Result<T, E>]. *)
Inductive ResultClass : Type :=
| OkC
| ErrC.

(** A container instance: its class and its fields.  Instances of [Some]
    and [None] have the field [_value]; instances of [Ok] and [Err] have
    [_value] and [_error]. *)
Inductive object : Type :=
| OptionObj (cls : OptionClass) (_value : value)
| ResultObj (cls : ResultClass) (_value : value) (_error : value).

(** How a computation completes: normally with a result, or abruptly with
    a thrown value.  [throw] accepts any value, not only error objects. *)
Inductive Completion (A : Type) : Type :=
| Normal (a : A)
| Throw (x : value).

Arguments Normal {A} a.
Arguments Throw {A} x.

Section Semantics.

(** The state of the surrounding program (its variables, its output),
    whatever it is. *)
Context {U : Type}.

Record World : Type := mkWorld {
  heap : list object;
  user : U
}.

(** Computations: state passing with abrupt completion. *)
Definition M (A : Type) : Type := World → Completion A * World.

Definition run {A : Type} (m : M A) (w : World) : Completion A * World :=
  m w.

#[export] Instance M_ret : MRet M := λ A a w, (Normal a, w).

#[export] Instance M_bind : MBind M := λ A B k m w,
  match m w with
  | (Normal a, w') => k a w'
  | (Throw x, w') => (Throw x, w')
  end.

(** [throw x] *)
Definition throw {A : Type} (x : value) : M A := λ w, (Throw x, w).

(** [new C(...)]: the instance is placed at the next free location.  This
    is the only way the store changes: the fields are [readonly], and no
    method assigns one. *)
Definition alloc (o : object) : M loc := λ w,
  (Normal (length (heap w)), {| heap := heap w ++ [o]; user := user w |}).

(** Following a reference.  A reference to nothing has no methods and
    no fields. *)
Definition deref (l : loc) : M object := λ w,
  match heap w !! l with
  | Some o => (Normal o, w)
  | None => (Throw type_error, w)
  end.

(** [this._value] *)
Definition get_value (this : loc) : M value :=
  o ← deref this;
  mret (match o with
        | OptionObj _ v => v
        | ResultObj _ v _ => v
        end).

(** [this._error]; a property that an object does not have reads as
    [undefined]. *)
Definition get_error (this : loc) : M value :=
  o ← deref this;
  mret (match o with
        | OptionObj _ _ => VUndefined
        | ResultObj _ _ e => e
        end).

(** *** option.ts *)

(** [type SomeArm<R, T> = (value: T) => R], [type NoneArm<R> = () => R],
    and the object literal [{ some, none }] passed to [match]. *)
Record OptionPattern (R : Type) : Type := mkOptionPattern {
  some : value → M R;
  none : M R
}.
Arguments some {R} _ _.
Arguments none {R} _.

(** [class Some<T> extends Option<T>] *)

(** [constructor(value: T) { super(); this._value = value; }] *)
Definition new_Some (value : value) : M loc :=
  alloc (OptionObj SomeC value).

(** [unwrap(): T { return this._value; }] *)
Definition Some_unwrap (this : loc) : M value :=
  get_value this.

(** [match(pattern) { return pattern.some(this._value); }] *)
Definition Some_match {R : Type} (this : loc) (pattern : OptionPattern R)
  : M R :=
  v ← get_value this;
  some pattern v.

(** [isSome(): boolean { return true; }] *)
Definition Some_isSome (this : loc) : M bool :=
  mret true.

(** [isNone(): boolean { return false; }] *)
Definition Some_isNone (this : loc) : M bool :=
  mret false.

(** [class None<T = never> extends Option<T>] *)

(** No constructor of its own; the field initialiser is
    [_value?: T = undefined]. *)
Definition new_None : M loc :=
  alloc (OptionObj NoneC VUndefined).

(** [unwrap(): T { throw new Panic(...); }] *)
Definition None_unwrap (this : loc) : M value :=
  throw (VErrorObj (new_Panic "called `Option::unwrap()` on a `None` value")).

(** [match(pattern) { return pattern.none(); }] *)
Definition None_match {R : Type} (this : loc) (pattern : OptionPattern R)
  : M R :=
  none pattern.

(** [isSome(): boolean { return false; }] *)
Definition None_isSome (this : loc) : M bool :=
  mret false.

(** [isNone(): boolean { return true; }] *)
Definition None_isNone (this : loc) : M bool :=
  mret true.

(** [abstract class Option<T>]: a call on an [Option] goes to the method
    of the receiver's class.  The types of the program keep instances of
    [Ok] and [Err] out of the place of an [Option]; here such a call
    fails. *)
Definition Option_dispatch {A : Type} (this : loc)
    (if_Some if_None : loc → M A) : M A :=
  o ← deref this;
  match o with
  | OptionObj SomeC _ => if_Some this
  | OptionObj NoneC _ => if_None this
  | ResultObj _ _ _ => throw type_error
  end.

Definition Option_unwrap (this : loc) : M value :=
  Option_dispatch this Some_unwrap None_unwrap.

Definition Option_match {R : Type} (this : loc) (pattern : OptionPattern R)
  : M R :=
  Option_dispatch this (λ this, Some_match this pattern)
                       (λ this, None_match this pattern).

Definition Option_isSome (this : loc) : M bool :=
  Option_dispatch this Some_isSome None_isSome.

Definition Option_isNone (this : loc) : M bool :=
  Option_dispatch this Some_isNone None_isNone.

(** *** result.ts *)

(** [type OkArm<R, T> = (value: T) => R],
    [type ErrArm<R, E> = (error: E) => R],
    and the object literal [{ ok, err }] passed to [match]. *)
Record ResultPattern (R : Type) : Type := mkResultPattern {
  ok : value → M R;
  err : value → M R
}.
Arguments ok {R} _ _.
Arguments err {R} _ _.

(** [class Ok<T, E = never> extends Result<T, E>] *)

(** [_error?: E = undefined;
    constructor(value: T) { super(); this._value = value; }] *)
Definition new_Ok (value : value) : M loc :=
  alloc (ResultObj OkC value VUndefined).

(** [isOk(): boolean { return true; }] *)
Definition Ok_isOk (this : loc) : M bool :=
  mret true.

(** [isErr(): boolean { return false; }] *)
Definition Ok_isErr (this : loc) : M bool :=
  mret false.

(** [ok(): Option<T> { return new Some(this._value); }] *)
Definition Ok_ok (this : loc) : M loc :=
  v ← get_value this;
  new_Some v.

(** [err(): Option<E> { return new None<E>(); }] *)
Definition Ok_err (this : loc) : M loc :=
  new_None.

(** [match(pattern) { return pattern.ok(this._value); }] *)
Definition Ok_match {R : Type} (this : loc) (pattern : ResultPattern R)
  : M R :=
  v ← get_value this;
  ok pattern v.

(** [unwrap(): T { return this._value; }] *)
Definition Ok_unwrap (this : loc) : M value :=
  get_value this.

(** [class Err<T = never, E = unknown> extends Result<T, E>] *)

(** [_value?: T = undefined;
    constructor(error: E) { super(); this._error = error; }] *)
Definition new_Err (error : value) : M loc :=
  alloc (ResultObj ErrC VUndefined error).

(** [isOk(): boolean { return false; }] *)
Definition Err_isOk (this : loc) : M bool :=
  mret false.

(** [isErr(): boolean { return true; }] *)
Definition Err_isErr (this : loc) : M bool :=
  mret true.

(** [ok(): Option<T> { return new None<T>(); }] *)
Definition Err_ok (this : loc) : M loc :=
  new_None.

(** [err(): Option<E> { return new Some(this._error); }] *)
Definition Err_err (this : loc) : M loc :=
  e ← get_error this;
  new_Some e.

(** [match(pattern) { return pattern.err(this._error); }] *)
Definition Err_match {R : Type} (this : loc) (pattern : ResultPattern R)
  : M R :=
  e ← get_error this;
  err pattern e.

(** [unwrap(): T { throw this._error; }] *)
Definition Err_unwrap (this : loc) : M value :=
  e ← get_error this;
  throw e.

(** [abstract class Result<T, E>]: likewise, a call on a [Result] goes
    to the method of the receiver's class. *)
Definition Result_dispatch {A : Type} (this : loc)
    (if_Ok if_Err : loc → M A) : M A :=
  o ← deref this;
  match o with
  | ResultObj OkC _ _ => if_Ok this
  | ResultObj ErrC _ _ => if_Err this
  | OptionObj _ _ => throw type_error
  end.

Definition Result_isOk (this : loc) : M bool :=
  Result_dispatch this Ok_isOk Err_isOk.

Definition Result_isErr (this : loc) : M bool :=
  Result_dispatch this Ok_isErr Err_isErr.

Definition Result_ok (this : loc) : M loc :=
  Result_dispatch this Ok_ok Err_ok.

Definition Result_err (this : loc) : M loc :=
  Result_dispatch this Ok_err Err_err.

Definition Result_unwrap (this : loc) : M value :=
  Result_dispatch this Ok_unwrap Err_unwrap.

Definition Result_match {R : Type} (this : loc) (pattern : ResultPattern R)
  : M R :=
  Result_dispatch this (λ this, Ok_match this pattern)
                       (λ this, Err_match this pattern).

(** *** Observing containers and calling them repeatedly *)

(** The contents of the instance a computation returns. *)
Definition inspect (m : M loc) : M object :=
  l ← m;
  deref l.

(** The read operations that take no argument. *)
Inductive read_op : Type :=
| isSome
| isNone
| unwrapOption
| isOk
| isErr
| okOf
| errOf
| unwrapResult.

(** What a caller sees of a read operation's result: a boolean, a
    payload, or, for the two conversions, the contents of the [Option]
    instance that comes back. *)
Inductive answer : Type :=
| ABool (b : bool)
| AValue (v : value)
| AObject (o : object).

(** [this.op()] *)
Definition call (op : read_op) (this : loc) : M answer :=
  match op with
  | isSome => b ← Option_isSome this; mret (ABool b)
  | isNone => b ← Option_isNone this; mret (ABool b)
  | unwrapOption => v ← Option_unwrap this; mret (AValue v)
  | isOk => b ← Result_isOk this; mret (ABool b)
  | isErr => b ← Result_isErr this; mret (ABool b)
  | okOf => o ← inspect (Result_ok this); mret (AObject o)
  | errOf => o ← inspect (Result_err this); mret (AObject o)
  | unwrapResult => v ← Result_unwrap this; mret (AValue v)
  end.

(** [try { m } catch { }]: run [m] and go on whatever its outcome. *)
Definition attempt {A : Type} (m : M A) : M unit := λ w,
  (Normal (), (run m w).2).

(** One read by a caller: an operation without argument, or [match] with
    the callbacks of the caller's choice. *)
Inductive read : Type :=
| Call (op : read_op) (this : loc)
| MatchOption (R : Type) (this : loc) (pattern : OptionPattern R)
| MatchResult (R : Type) (this : loc) (pattern : ResultPattern R).

Definition perform (r : read) : M unit :=
  match r with
  | Call op this => attempt (call op this)
  | MatchOption _ this pattern => attempt (Option_match this pattern)
  | MatchResult _ this pattern => attempt (Result_match this pattern)
  end.

(** A caller that performs reads one after the other, on any receivers,
    in any order, any number of times. *)
Fixpoint reads (rs : list read) : M unit :=
  match rs with
  | [] => mret ()
  | r :: rs => _ ← perform r; reads rs
  end.

(** A caller that performs the same computation [n] times in a row, and
    what it sees each time. *)
Fixpoint repeatedly {A : Type} (n : nat) (m : M A) (w : World)
  : list (Completion A) * World :=
  match n with
  | 0 => ([], w)
  | S n =>
      let (c, w1) := run m w in
      let (cs, w2) := repeatedly n m w1 in
      (c :: cs, w2)
  end.

(** What a callback may be like.  One that keeps the instances does what
    it wants with the rest of the program but leaves the instances that
    exist as they are; code outside the classes can do no other, the
    fields being [protected readonly].  A quiet one leaves the whole
    program as it is. *)
Definition keeps_instances (A : Type) (m : M A) : Prop :=
  ∀ w l o, heap w !! l = Some o → heap (run m w).2 !! l = Some o.

Definition quiet (A : Type) (m : M A) : Prop :=
  ∀ w, (run m w).2 = w.

(** All the callbacks of a read are like [P]. *)
Definition callbacks (P : ∀ A : Type, M A → Prop) (r : read) : Prop :=
  match r with
  | Call _ _ => True
  | MatchOption R _ pattern =>
      (∀ v, P R (some pattern v)) ∧ P R (none pattern)
  | MatchResult R _ pattern =>
      (∀ v, P R (ok pattern v)) ∧ (∀ e, P R (err pattern e))
  end.

End Semantics.

Arguments World U : clear implicits.
Arguments M U A : clear implicits.
Arguments OptionPattern U R : clear implicits.
Arguments ResultPattern U R : clear implicits.
Arguments some {U R} _ _.
Arguments none {U R} _.
Arguments ok {U R} _ _.
Arguments err {U R} _ _.
Arguments read U : clear implicits.
Arguments MatchOption {U R} this pattern.
Arguments MatchResult {U R} this pattern.

(** ** Spies

    Callbacks that record in the program state that they were called, and
    with what, the way a test spy does; the state is the list of the calls
    made so far. *)

Inductive callback_call : Type :=
| CalledSome (v : value)
| CalledNone
| CalledOk (v : value)
| CalledErr (e : value).

Definition spy {R : Type} (c : callback_call) (r : R)
  : M (list callback_call) R := λ w,
  (Normal r, {| heap := heap w; user := user w ++ [c] |}).

Definition option_spies {R : Type} (f : value → R) (g : R)
  : OptionPattern (list callback_call) R :=
  {| some := λ v, spy (CalledSome v) (f v);
     none := spy CalledNone g |}.

Definition result_spies {R : Type} (f g : value → R)
  : ResultPattern (list callback_call) R :=
  {| ok := λ v, spy (CalledOk v) (f v);
     err := λ e, spy (CalledErr e) (g e) |}.

(** A program state with no container in it. *)
Definition empty_world {U : Type} (u : U) : World U :=
  {| heap := []; user := u |}.

(** The program state [w] with the instances [ext] added at the end of the
    store. *)
Definition extend {U : Type} (w : World U) (ext : list object) : World U :=
  {| heap := heap w ++ ext; user := user w |}.

(** ** Callers: the example programs

    The functions of [examples/] and of the test suite that use the
    containers. *)

(** [try { body } catch (error) { handler }] *)
Definition try_catch {U A : Type} (body : M U A) (handler : value → M U A)
  : M U A := λ w,
  match run body w with
  | (Normal a, w') => (Normal a, w')
  | (Throw x, w') => run (handler x) w'
  end.

(** The console: the lines printed so far. *)
Definition Console : Type := list string.

(** [console.log(line)] *)
Definition console_log (line : string) : M Console unit := λ w,
  (Normal (), {| heap := heap w; user := user w ++ [line] |}).

(** [error.message] inside a template literal.  The callers read it from
    instances of [Panic] only; a primitive has no such property, which
    prints as [undefined]. *)
Definition message_of (error : value) : string :=
  match error with
  | VErrorObj e => message e
  | _ => "undefined"
  end.

(** [function demonstrateUnrecoverableError()]:
    [try { const errorResult = new Err('critical error');
           errorResult.unwrap(); }
     catch (error) {
       if (error instanceof Panic)
         console.log(`Caught Panic: ${error.message}`); }] *)
Definition demonstrateUnrecoverableError : M Console unit :=
  try_catch
    (errorResult ← new_Err (VString "critical error");
     _ ← Result_unwrap errorResult;
     mret ())
    (λ error,
       if instanceofPanic error
       then console_log ("Caught Panic: " +:+ message_of error)
       else mret ()).

(** [function safelyHandleResult<T, E>(result: Result<T, E>): T | null]:
    [if (result.isOk()) { return result.unwrap(); }
     else { console.log('Result is an error, returning null');
            return null; }] *)
Definition safelyHandleResult (result : loc) : M Console value :=
  b ← Result_isOk result;
  if b : bool then Result_unwrap result
  else (_ ← console_log "Result is an error, returning null";
        mret VNull).

(** What [parseInt] returns: [NaN] or a number. *)
Inductive number : Type :=
| NaN
| Num (n : Z).

Section Parsing.

Context {U : Type}.

(** The host's [parseInt(string, radix)], whatever it does. *)
Variable parseInt : string → Z → M U number.

(** [function stringToNum(str: string): Result<number, string>]:
    [try { const value = parseInt(str, 10);
           if (isNaN(value)) { return new Err('Value is not a number'); }
           return new Ok(value); }
     catch (err) { return new Err('Value is none'); }] *)
Definition stringToNum (str : string) : M U loc :=
  try_catch
    (value ← parseInt str 10;
     match value with
     | NaN => new_Err (VString "Value is not a number")
     | Num n => new_Ok (VNumber n)
     end)
    (λ err, new_Err (VString "Value is none")).

(** [{ ok: (value) => value, err: () => 0 }] *)
Definition recover : ResultPattern U value :=
  {| ok := λ value, mret value;
     err := λ _, mret (VNumber 0) |}.

(** [const trigger = stringToNum(str);
     const result = trigger.match({ ok: (value) => value, err: () => 0 });] *)
Definition stringToNum_or_zero (str : string) : M U value :=
  trigger ← stringToNum str;
  Result_match trigger recover.

End Parsing.

(** ** The store under the operations *)

Section Store.

Context {U : Type}.
Implicit Types (w : World U) (this l : loc) (o : object) (v e : value).

Lemma run_bind {A B : Type} (m : M U A) (k : A → M U B) w :
  run (m ≫= k) w =
  match run m w with
  | (Normal a, w') => run (k a) w'
  | (Throw x, w') => (Throw x, w')
  end.
Proof. reflexivity. Qed.

Lemma run_ret {A : Type} (a : A) w : run (mret a) w = (Normal a, w).
Proof. reflexivity. Qed.

Lemma run_throw {A : Type} (x : value) w :
  run (throw (A := A) x) w = (Throw x, w).
Proof. reflexivity. Qed.

Lemma run_attempt {A : Type} (m : M U A) w :
  run (attempt m) w = (Normal (), (run m w).2).
Proof. reflexivity. Qed.

Lemma run_alloc o w :
  run (alloc o) w =
  (Normal (length (heap w)), {| heap := heap w ++ [o]; user := user w |}).
Proof. reflexivity. Qed.

Lemma run_deref this o w :
  heap w !! this = Some o → run (deref this) w = (Normal o, w).
Proof. intros H. unfold run, deref. by rewrite H. Qed.

Lemma run_deref_dangling this w :
  heap w !! this = None → run (deref this) w = (Throw type_error, w).
Proof. intros H. unfold run, deref. by rewrite H. Qed.

(** The instance that [new] has just made is where [new] says. *)
Lemma lookup_fresh (h : list object) o : (h ++ [o]) !! length h = Some o.
Proof. by apply list_lookup_middle. Qed.

End Store.

(** ** What each method does on a given receiver *)

#[local] Ltac unfold_methods :=
  unfold call, inspect,
    Option_unwrap, Option_match, Option_isSome, Option_isNone,
    Result_isOk, Result_isErr, Result_ok, Result_err, Result_unwrap,
    Result_match, Option_dispatch, Result_dispatch,
    Some_unwrap, Some_match, Some_isSome, Some_isNone,
    None_unwrap, None_match, None_isSome, None_isNone,
    Ok_isOk, Ok_isErr, Ok_ok, Ok_err, Ok_match, Ok_unwrap,
    Err_isOk, Err_isErr, Err_ok, Err_err, Err_match, Err_unwrap,
    new_Some, new_None, new_Ok, new_Err, get_value, get_error.

(** Runs a computation whose receivers are known: unfolds the methods and
    looks the receivers up with the store facts at hand. *)
#[local] Ltac run_methods :=
  unfold_methods;
  repeat first
    [ rewrite run_bind
    | rewrite run_alloc
    | erewrite run_deref by (first [ eassumption | apply lookup_fresh ])
    | rewrite run_ret
    | rewrite run_throw
    | progress cbn [heap user fst snd] ].

Section Methods.

Context {U : Type}.
Implicit Types (w : World U) (this l : loc) (o : object) (v e : value).

(** *** Option *)

Lemma Option_isSome_at this cls v w :
  heap w !! this = Some (OptionObj cls v) →
  run (Option_isSome this) w =
  (Normal (match cls with SomeC => true | NoneC => false end), w).
Proof. intros H. run_methods. by destruct cls. Qed.

Lemma Option_isNone_at this cls v w :
  heap w !! this = Some (OptionObj cls v) →
  run (Option_isNone this) w =
  (Normal (match cls with SomeC => false | NoneC => true end), w).
Proof. intros H. run_methods. by destruct cls. Qed.

Lemma Option_unwrap_Some this v w :
  heap w !! this = Some (OptionObj SomeC v) →
  run (Option_unwrap this) w = (Normal v, w).
Proof. intros H. by run_methods. Qed.

Lemma Option_unwrap_None this v w :
  heap w !! this = Some (OptionObj NoneC v) →
  run (Option_unwrap this) w =
  (Throw (VErrorObj
            (new_Panic "called `Option::unwrap()` on a `None` value")), w).
Proof. intros H. by run_methods. Qed.

Lemma Option_match_Some {R : Type} this v (pattern : OptionPattern U R) w :
  heap w !! this = Some (OptionObj SomeC v) →
  run (Option_match this pattern) w = run (some pattern v) w.
Proof. intros H. by run_methods. Qed.

Lemma Option_match_None {R : Type} this v (pattern : OptionPattern U R) w :
  heap w !! this = Some (OptionObj NoneC v) →
  run (Option_match this pattern) w = run (none pattern) w.
Proof. intros H. by run_methods. Qed.

(** *** Result *)

Lemma Result_isOk_at this cls v e w :
  heap w !! this = Some (ResultObj cls v e) →
  run (Result_isOk this) w =
  (Normal (match cls with OkC => true | ErrC => false end), w).
Proof. intros H. run_methods. by destruct cls. Qed.

Lemma Result_isErr_at this cls v e w :
  heap w !! this = Some (ResultObj cls v e) →
  run (Result_isErr this) w =
  (Normal (match cls with OkC => false | ErrC => true end), w).
Proof. intros H. run_methods. by destruct cls. Qed.

Lemma Result_ok_at this cls v e w :
  heap w !! this = Some (ResultObj cls v e) →
  run (Result_ok this) w =
  (Normal (length (heap w)),
   {| heap := heap w ++ [match cls with
                         | OkC => OptionObj SomeC v
                         | ErrC => OptionObj NoneC VUndefined
                         end];
      user := user w |}).
Proof. intros H. run_methods. by destruct cls; run_methods. Qed.

Lemma Result_err_at this cls v e w :
  heap w !! this = Some (ResultObj cls v e) →
  run (Result_err this) w =
  (Normal (length (heap w)),
   {| heap := heap w ++ [match cls with
                         | OkC => OptionObj NoneC VUndefined
                         | ErrC => OptionObj SomeC e
                         end];
      user := user w |}).
Proof. intros H. run_methods. by destruct cls; run_methods. Qed.

Lemma Result_unwrap_Ok this v e w :
  heap w !! this = Some (ResultObj OkC v e) →
  run (Result_unwrap this) w = (Normal v, w).
Proof. intros H. by run_methods. Qed.

Lemma Result_unwrap_Err this v e w :
  heap w !! this = Some (ResultObj ErrC v e) →
  run (Result_unwrap this) w = (Throw e, w).
Proof. intros H. by run_methods. Qed.

Lemma Result_match_Ok {R : Type} this v e (pattern : ResultPattern U R) w :
  heap w !! this = Some (ResultObj OkC v e) →
  run (Result_match this pattern) w = run (ok pattern v) w.
Proof. intros H. by run_methods. Qed.

Lemma Result_match_Err {R : Type} this v e (pattern : ResultPattern U R) w :
  heap w !! this = Some (ResultObj ErrC v e) →
  run (Result_match this pattern) w = run (err pattern e) w.
Proof. intros H. by run_methods. Qed.

End Methods.

(** ** Read operations leave the store as they found it *)

Section Frame.

Context {U : Type}.
Implicit Types (w : World U) (this l : loc) (o : object) (v e : value).

Lemma extend_nil w : extend w [] = w.
Proof. destruct w. unfold extend. cbn. by rewrite app_nil_r. Qed.

Lemma extend_extend w ext1 ext2 :
  extend (extend w ext1) ext2 = extend w (ext1 ++ ext2).
Proof. unfold extend. cbn. by rewrite app_assoc. Qed.

Lemma lookup_extend w ext l o :
  heap w !! l = Some o → heap (extend w ext) !! l = Some o.
Proof. intros H. cbn. by apply lookup_app_l_Some. Qed.

(** On a receiver that is there, a read operation gives an answer that
    depends on the receiver's class and fields only, and it adds at most
    new instances to the store. *)
Lemma call_at op this o :
  ∃ a ext, ∀ w,
    heap w !! this = Some o → run (call op this) w = (a, extend w ext).
Proof.
  destruct op, o as [[] v|[] v e];
    eexists _, _; intros w H; run_methods;
    first [ by rewrite <- (extend_nil w) at 1 | reflexivity ].
Qed.

(** On a reference to nothing, every call fails and changes nothing. *)
Lemma call_dangling op this w :
  heap w !! this = None → run (call op this) w = (Throw type_error, w).
Proof.
  intros H. destruct op; unfold_methods;
    repeat rewrite run_bind; by rewrite (run_deref_dangling _ _ H).
Qed.

Lemma call_frame op this w : ∃ ext, (run (call op this) w).2 = extend w ext.
Proof.
  destruct (heap w !! this) as [o|] eqn:H.
  - destruct (call_at op this o) as (a & ext & Hrun).
    exists ext. by rewrite (Hrun _ H).
  - exists []. by rewrite (call_dangling _ _ _ H), extend_nil.
Qed.

(** [match] on any receiver: one arm, or the failure of the call. *)
Lemma Option_match_cases {R : Type} this (pattern : OptionPattern U R) w :
  (∃ v, heap w !! this = Some (OptionObj SomeC v) ∧
        run (Option_match this pattern) w = run (some pattern v) w) ∨
  run (Option_match this pattern) w = run (none pattern) w ∨
  run (Option_match this pattern) w = (Throw type_error, w).
Proof.
  destruct (heap w !! this) as [[[] v|cls v e]|] eqn:H.
  - left. exists v. split; [done|]. by apply Option_match_Some.
  - right; left. by apply (Option_match_None _ v).
  - right; right. by run_methods.
  - right; right. unfold_methods.
    by rewrite run_bind, (run_deref_dangling _ _ H).
Qed.

Lemma Result_match_cases {R : Type} this (pattern : ResultPattern U R) w :
  (∃ v e, heap w !! this = Some (ResultObj OkC v e) ∧
          run (Result_match this pattern) w = run (ok pattern v) w) ∨
  (∃ v e, heap w !! this = Some (ResultObj ErrC v e) ∧
          run (Result_match this pattern) w = run (err pattern e) w) ∨
  run (Result_match this pattern) w = (Throw type_error, w).
Proof.
  destruct (heap w !! this) as [[cls v|[] v e]|] eqn:H.
  - right; right. by run_methods.
  - left. exists v, e. split; [done|]. by apply (Result_match_Ok _ v e).
  - right; left. exists v, e. split; [done|].
    by apply (Result_match_Err _ v e).
  - right; right. unfold_methods.
    by rewrite run_bind, (run_deref_dangling _ _ H).
Qed.

(** A read whose callbacks keep the instances keeps them. *)
Lemma perform_keeps (r : read U) :
  callbacks (@keeps_instances U) r → keeps_instances unit (perform r).
Proof.
  intros Hr w l o H. destruct r as [op this|R this p|R this p];
    cbn [perform]; rewrite run_attempt; cbn [snd].
  - destruct (call_frame op this w) as [ext ->]. by apply lookup_extend.
  - destruct Hr as [Hsome Hnone].
    destruct (Option_match_cases this p w) as [(v & _ & ->)|[->| ->]];
      [by apply Hsome | by apply Hnone | done].
  - destruct Hr as [Hok Herr].
    destruct (Result_match_cases this p w)
      as [(v & e & _ & ->)|[(v & e & _ & ->)| ->]];
      [by apply Hok | by apply Herr | done].
Qed.

Lemma reads_keep (rs : list (read U)) :
  Forall (callbacks (@keeps_instances U)) rs →
  keeps_instances unit (reads rs).
Proof.
  induction 1 as [|r rs Hr _ IH]; intros w l o H; [done|].
  cbn [reads]. rewrite run_bind.
  pose proof (perform_keeps r Hr w l o H) as H1.
  destruct (run (perform r) w) as [[[]|x] w1] eqn:E.
  - by apply IH.
  - destruct r; discriminate E.
Qed.

(** A read whose callbacks are quiet adds at most new instances. *)
Lemma perform_quiet (r : read U) w :
  callbacks (@quiet U) r → ∃ ext, (run (perform r) w).2 = extend w ext.
Proof.
  intros Hr. destruct r as [op this|R this p|R this p];
    cbn [perform]; rewrite run_attempt; cbn [snd].
  - apply call_frame.
  - exists []. rewrite extend_nil. destruct Hr as [Hsome Hnone].
    destruct (Option_match_cases this p w) as [(v & _ & ->)|[->| ->]];
      [by apply Hsome | by apply Hnone | done].
  - exists []. rewrite extend_nil. destruct Hr as [Hok Herr].
    destruct (Result_match_cases this p w)
      as [(v & e & _ & ->)|[(v & e & _ & ->)| ->]];
      [by apply Hok | by apply Herr | done].
Qed.

Lemma reads_quiet (rs : list (read U)) w :
  Forall (callbacks (@quiet U)) rs →
  ∃ ext, (run (reads rs) w).2 = extend w ext.
Proof.
  intros Hrs. revert w. induction Hrs as [|r rs Hr _ IH]; intros w.
  - exists []. by rewrite extend_nil.
  - destruct (perform_quiet r w Hr) as [ext1 H1].
    destruct (IH (extend w ext1)) as [ext2 H2].
    exists (ext1 ++ ext2). cbn [reads]. rewrite run_bind.
    destruct (run (perform r) w) as [[[]|x] w1] eqn:E.
    + cbn [snd] in H1. subst w1. by rewrite H2, extend_extend.
    + destruct r; discriminate E.
Qed.

(** A computation that leaves the program as it is gives the same every
    time. *)
Lemma repeatedly_same {A : Type} (m : M U A) w n :
  (run m w).2 = w → repeatedly n m w = (replicate n (run m w).1, w).
Proof.
  intros H. induction n as [|n IH]; [done|].
  cbn [repeatedly replicate].
  destruct (run m w) as [c w1] eqn:E. cbn [fst snd] in *. subst w1.
  by rewrite IH.
Qed.

End Frame.

(** ** Properties of the containers *)

(** C6: for every value [v], [Ok(v).isOk()] is [true], [Ok(v).isErr()] is
    [false] and [Ok(v).unwrap()] returns [v]; for every error value [e],
    [Err(e).isOk()] is [false] and [Err(e).isErr()] is [true]. *)
Theorem Result_predicates_and_unwrap :
  ∀ (U : Type) (w : World U) (v e : value),
    (run (this ← new_Ok v; Result_isOk this) w).1 = Normal true ∧
    (run (this ← new_Ok v; Result_isErr this) w).1 = Normal false ∧
    (run (this ← new_Ok v; Result_unwrap this) w).1 = Normal v ∧
    (run (this ← new_Err e; Result_isOk this) w).1 = Normal false ∧
    (run (this ← new_Err e; Result_isErr this) w).1 = Normal true.
Proof. intros U w v e. repeat split; by run_methods. Qed.

(** C7: for every value [v], [Some(v).isSome()] is [true],
    [Some(v).isNone()] is [false] and [Some(v).unwrap()] returns [v];
    [None.isSome()] is [false] and [None.isNone()] is [true]. *)
Theorem Option_predicates_and_unwrap :
  ∀ (U : Type) (w : World U) (v : value),
    (run (this ← new_Some v; Option_isSome this) w).1 = Normal true ∧
    (run (this ← new_Some v; Option_isNone this) w).1 = Normal false ∧
    (run (this ← new_Some v; Option_unwrap this) w).1 = Normal v ∧
    (run (this ← new_None; Option_isSome this) w).1 = Normal false ∧
    (run (this ← new_None; Option_isNone this) w).1 = Normal true.
Proof. intros U w v. repeat split; by run_methods. Qed.

(** C10: the class of the instance decides what every operation does, not
    what the instance holds.
    - Whatever the payload [v], on [Some(v)] [isSome()] is [true],
      [isNone()] is [false], [unwrap()] returns [v] and [match] runs the
      [some] arm on [v].
    - An instance of [Some] made with [undefined] has the same [_value] as
      an instance of [None], and still [isSome()] is [true], [isNone()] is
      [false], [unwrap()] returns [undefined] and throws nothing, and
      [match] runs the [some] arm on [undefined]; whereas on [None]
      [isSome()] is [false], [isNone()] is [true], [unwrap()] throws a
      [Panic] and [match] runs the [none] arm.
    - Likewise [Ok(undefined)] and [Err(undefined)] have the same fields,
      both [undefined], and every operation goes by the class: the
      predicates, [unwrap()], which returns [undefined] on the one and
      throws [undefined] on the other, [ok()] and [err()], which give a
      [Some] holding [undefined] or a [None], and [match]. *)
Theorem Some_undefined_is_present :
  ∀ (U : Type) (w : World U),
    (∀ v : value,
       (run (this ← new_Some v; Option_isSome this) w).1 = Normal true ∧
       (run (this ← new_Some v; Option_isNone this) w).1 = Normal false ∧
       (run (this ← new_Some v; Option_unwrap this) w).1 = Normal v) ∧
    (run (inspect (new_Some VUndefined)) w).1
      = Normal (OptionObj SomeC VUndefined) ∧
    (run (inspect new_None) w).1 = Normal (OptionObj NoneC VUndefined) ∧
    (run (this ← new_Some VUndefined; Option_isSome this) w).1
      = Normal true ∧
    (run (this ← new_Some VUndefined; Option_isNone this) w).1
      = Normal false ∧
    (run (this ← new_Some VUndefined; Option_unwrap this) w).1
      = Normal VUndefined ∧
    (∀ (R : Type) (pattern : OptionPattern U R) (v : value),
       run (this ← new_Some v; Option_match this pattern) w
         = run (new_Some v ;; some pattern v) w) ∧
    (∀ (R : Type) (pattern : OptionPattern U R),
       run (this ← new_Some VUndefined; Option_match this pattern) w
         = run (new_Some VUndefined ;; some pattern VUndefined) w) ∧
    (run (this ← new_None; Option_isSome this) w).1 = Normal false ∧
    (run (this ← new_None; Option_isNone this) w).1 = Normal true ∧
    (∃ p : ErrorObject,
       (run (this ← new_None; Option_unwrap this) w).1
         = Throw (VErrorObj p) ∧
       instanceofPanic (VErrorObj p) = true) ∧
    (∀ (R : Type) (pattern : OptionPattern U R),
       run (this ← new_None; Option_match this pattern) w
         = run (new_None ;; none pattern) w) ∧
    (run (inspect (new_Ok VUndefined)) w).1
      = Normal (ResultObj OkC VUndefined VUndefined) ∧
    (run (inspect (new_Err VUndefined)) w).1
      = Normal (ResultObj ErrC VUndefined VUndefined) ∧
    (run (this ← new_Ok VUndefined; Result_isOk this) w).1 = Normal true ∧
    (run (this ← new_Ok VUndefined; Result_isErr this) w).1 = Normal false ∧
    (run (this ← new_Ok VUndefined; Result_unwrap this) w).1
      = Normal VUndefined ∧
    (run (inspect (this ← new_Ok VUndefined; Result_ok this)) w).1
      = Normal (OptionObj SomeC VUndefined) ∧
    (run (inspect (this ← new_Ok VUndefined; Result_err this)) w).1
      = Normal (OptionObj NoneC VUndefined) ∧
    (∀ (R : Type) (pattern : ResultPattern U R),
       run (this ← new_Ok VUndefined; Result_match this pattern) w
         = run (new_Ok VUndefined ;; ok pattern VUndefined) w) ∧
    (run (this ← new_Err VUndefined; Result_isOk this) w).1 = Normal false ∧
    (run (this ← new_Err VUndefined; Result_isErr this) w).1 = Normal true ∧
    (run (this ← new_Err VUndefined; Result_unwrap this) w).1
      = Throw VUndefined ∧
    (run (inspect (this ← new_Err VUndefined; Result_ok this)) w).1
      = Normal (OptionObj NoneC VUndefined) ∧
    (run (inspect (this ← new_Err VUndefined; Result_err this)) w).1
      = Normal (OptionObj SomeC VUndefined) ∧
    (∀ (R : Type) (pattern : ResultPattern U R),
       run (this ← new_Err VUndefined; Result_match this pattern) w
         = run (new_Err VUndefined ;; err pattern VUndefined) w).
Proof.
  intros U w.
  repeat match goal with
         | |- _ ∧ _ => split
         | |- ∃ p : ErrorObject, _ =>
             exists (new_Panic "called `Option::unwrap()` on a `None` value")
         end;
    intros; first [ by run_methods | done ].
Qed.

(** C5: for every value [v], [Ok(v).ok()] is an instance like [Some(v)]
    and [Ok(v).err()] one like [None]; for every error value [e],
    [Err(e).ok()] is an instance like [None] and [Err(e).err()] one like
    [Some(e)]. *)
Theorem Result_to_Option_conversions :
  ∀ (U : Type) (w : World U) (v e : value),
    (run (inspect (this ← new_Ok v; Result_ok this)) w).1
      = (run (inspect (new_Some v)) w).1 ∧
    (run (inspect (this ← new_Ok v; Result_err this)) w).1
      = (run (inspect new_None) w).1 ∧
    (run (inspect (this ← new_Err e; Result_ok this)) w).1
      = (run (inspect new_None) w).1 ∧
    (run (inspect (this ← new_Err e; Result_err this)) w).1
      = (run (inspect (new_Some e)) w).1 ∧
    (run (inspect (new_Some v)) w).1 = Normal (OptionObj SomeC v) ∧
    (run (inspect new_None) w).1 = Normal (OptionObj NoneC VUndefined).
Proof. intros U w v e. repeat split; by run_methods. Qed.

(** C8: for every value [v], [Ok(v).ok().unwrap()] returns [v] and throws
    nothing; in particular [Ok(5).ok()] is an instance like [Some(5)], and
    unwrapping it returns [5]. *)
Theorem Ok_ok_unwrap_round_trip :
  ∀ (U : Type) (w : World U),
    (∀ v : value,
       (run (this ← new_Ok v; o ← Result_ok this; Option_unwrap o) w).1
         = Normal v) ∧
    (run (inspect (this ← new_Ok (VNumber 5); Result_ok this)) w).1
      = (run (inspect (new_Some (VNumber 5))) w).1 ∧
    (run (this ← new_Ok (VNumber 5); o ← Result_ok this; Option_unwrap o) w).1
      = Normal (VNumber 5).
Proof. intros U w. repeat split; intros; by run_methods. Qed.

(** C1: [Err("boom").unwrap()] throws the held value itself, the string
    ["boom"], and a string is not an instance of [Panic]: no [Panic] is
    raised, against the documentation of [unwrap] ("Throws Panic if the
    value is an Err"). *)
Theorem Err_unwrap_boom_throws_no_Panic :
  ∀ (U : Type) (w : World U),
    (run (this ← new_Err (VString "boom"); Result_unwrap this) w).1
      = Throw (VString "boom") ∧
    instanceofPanic (VString "boom") = false ∧
    instanceofError (VString "boom") = false.
Proof. intros U w. repeat split. by run_methods. Qed.

(** C2, as stated: [None.unwrap()] does not throw a [Panic] whose message
    is ["called unwrap on an absent value"]. *)
Lemma None_unwrap_message_is_not_the_stated_one :
  ¬ ∃ p : ErrorObject,
      (run (this ← new_None; Option_unwrap this) (empty_world ())).1
        = Throw (VErrorObj p) ∧
      instanceofPanic (VErrorObj p) = true ∧
      message p = "called unwrap on an absent value".
Proof.
  intros (p & Hthrow & _ & Hmessage). revert Hthrow. run_methods.
  intros [= <-]. discriminate Hmessage.
Qed.

(** C2, amended: [None.unwrap()] throws an instance of [Panic] whose
    message is exactly ["called `Option::unwrap()` on a `None` value"]. *)
Theorem None_unwrap_throws_Panic :
  ∀ (U : Type) (w : World U),
    ∃ p : ErrorObject,
      (run (this ← new_None; Option_unwrap this) w).1 = Throw (VErrorObj p) ∧
      instanceofPanic (VErrorObj p) = true ∧
      name p = "Panic" ∧
      message p = "called `Option::unwrap()` on a `None` value".
Proof.
  intros U w.
  exists (new_Panic "called `Option::unwrap()` on a `None` value").
  split; [by run_methods | done].
Qed.

(** C3: the two failing [unwrap]s differ.  For every error value [e],
    [Err(e).unwrap()] throws [e] itself, with no [Panic] around it, so
    what is thrown is a [Panic] only if [e] already was one; whereas
    [None.unwrap()] always throws an instance of [Panic]. *)
Theorem unwrap_failure_paths_are_asymmetric :
  ∀ (U : Type) (w : World U) (e : value),
    (run (this ← new_Err e; Result_unwrap this) w).1 = Throw e ∧
    (∀ x, (run (this ← new_Err e; Result_unwrap this) w).1 = Throw x →
          instanceofPanic x = instanceofPanic e) ∧
    (∃ p : ErrorObject,
       (run (this ← new_None; Option_unwrap this) w).1 = Throw (VErrorObj p) ∧
       instanceofPanic (VErrorObj p) = true).
Proof.
  intros U w e.
  assert ((run (this ← new_Err e; Result_unwrap this) w).1 = Throw e) as He
    by by run_methods.
  split; [done|]. split.
  - intros x. rewrite He. by intros [= <-].
  - eexists. split; [by run_methods | done].
Qed.

(** C4: [match] calls exactly one of its two callbacks, once, with what the
    container holds, and returns what the callback returns.  First, for
    any callbacks whatever, running [match] on a fresh container is
    running the callback of the container's class on its payload: same
    result, same effects.  Second, with spies for callbacks, the record
    of calls grows by one entry, the call of the right callback with
    the payload, and the result is the one the spy computes. *)
Theorem match_invokes_one_callback_once :
  (∀ (U R : Type) (pattern : OptionPattern U R) (v : value) (w : World U),
     run (this ← new_Some v; Option_match this pattern) w
       = run (new_Some v ;; some pattern v) w) ∧
  (∀ (U R : Type) (pattern : OptionPattern U R) (w : World U),
     run (this ← new_None; Option_match this pattern) w
       = run (new_None ;; none pattern) w) ∧
  (∀ (U R : Type) (pattern : ResultPattern U R) (v : value) (w : World U),
     run (this ← new_Ok v; Result_match this pattern) w
       = run (new_Ok v ;; ok pattern v) w) ∧
  (∀ (U R : Type) (pattern : ResultPattern U R) (e : value) (w : World U),
     run (this ← new_Err e; Result_match this pattern) w
       = run (new_Err e ;; err pattern e) w) ∧
  (∀ (R : Type) (f : value → R) (g : R) (v : value) w,
     let r := run (this ← new_Some v; Option_match this (option_spies f g)) w
     in r.1 = Normal (f v) ∧ user r.2 = user w ++ [CalledSome v]) ∧
  (∀ (R : Type) (f : value → R) (g : R) w,
     let r := run (this ← new_None; Option_match this (option_spies f g)) w
     in r.1 = Normal g ∧ user r.2 = user w ++ [CalledNone]) ∧
  (∀ (R : Type) (f g : value → R) (v : value) w,
     let r := run (this ← new_Ok v; Result_match this (result_spies f g)) w
     in r.1 = Normal (f v) ∧ user r.2 = user w ++ [CalledOk v]) ∧
  (∀ (R : Type) (f g : value → R) (e : value) w,
     let r := run (this ← new_Err e; Result_match this (result_spies f g)) w
     in r.1 = Normal (g e) ∧ user r.2 = user w ++ [CalledErr e]).
Proof.
  repeat split; intros; by run_methods.
Qed.

(** Repeating an operation without callback on an instance: the same
    answer every time. *)
Lemma repeatedly_call {U : Type} (w : World U) op this o n :
  heap w !! this = Some o →
  (repeatedly n (call op this) w).1 = replicate n (run (call op this) w).1 ∧
  ∃ ext, (repeatedly n (call op this) w).2 = extend w ext.
Proof.
  destruct (call_at (U := U) op this o) as (a & ext & Hrun).
  revert w. induction n as [|n IH]; intros w H.
  - split; [done|]. exists []. by rewrite extend_nil.
  - cbn [repeatedly replicate]. rewrite (Hrun _ H).
    destruct (IH (extend w ext) (lookup_extend _ _ _ _ H)) as [IH1 [ext' IH2]].
    rewrite (Hrun _ (lookup_extend _ _ _ _ H)) in IH1.
    destruct (repeatedly n (call op this) (extend w ext)) as [cs w2].
    cbn [fst snd] in *. subst. split; [done|].
    exists (ext ++ ext'). by rewrite extend_extend.
Qed.

(** C9: every read operation is idempotent and pure, and none changes an
    instance.  Take any instance in any program.
    - After any number of reads, on any receivers, [match] among them with
      any callbacks that keep the instances (they may change the rest of
      the program, make new instances, throw): every instance has the
      class and the fields it had; [isOk], [isErr], [isSome], [isNone],
      [ok], [err] and [unwrap] on the instance answer what they answered
      before and add at most new instances; and [match] on it is the arm
      for its class run on the payload it had, nothing more.
    - If the callbacks are quiet, the reads leave the program as it was,
      the new instances that [ok()] and [err()] made apart.
    - Called [n] times in a row, an operation without callback answers
      the same [n] times, and so does [match] with quiet callbacks, which
      leaves the program as it was. *)
Theorem reads_are_idempotent_and_pure :
  ∀ (U : Type) (w : World U) (this : loc) (o : object),
    heap w !! this = Some o →
    (∀ rs : list (read U),
       Forall (callbacks (@keeps_instances U)) rs →
       let w' := (run (reads rs) w).2 in
       (∀ l o', heap w !! l = Some o' → heap w' !! l = Some o') ∧
       (∀ op, (run (call op this) w').1 = (run (call op this) w).1) ∧
       (∀ op, ∃ ext, (run (call op this) w').2 = extend w' ext) ∧
       (∀ (R : Type) (pattern : OptionPattern U R) v,
          o = OptionObj SomeC v →
          run (Option_match this pattern) w' = run (some pattern v) w') ∧
       (∀ (R : Type) (pattern : OptionPattern U R) v,
          o = OptionObj NoneC v →
          run (Option_match this pattern) w' = run (none pattern) w') ∧
       (∀ (R : Type) (pattern : ResultPattern U R) v e,
          o = ResultObj OkC v e →
          run (Result_match this pattern) w' = run (ok pattern v) w') ∧
       (∀ (R : Type) (pattern : ResultPattern U R) v e,
          o = ResultObj ErrC v e →
          run (Result_match this pattern) w' = run (err pattern e) w')) ∧
    (∀ rs : list (read U),
       Forall (callbacks (@quiet U)) rs →
       ∃ ext, (run (reads rs) w).2 = extend w ext) ∧
    (∀ op n,
       (repeatedly n (call op this) w).1
         = replicate n (run (call op this) w).1 ∧
       ∃ ext, (repeatedly n (call op this) w).2 = extend w ext) ∧
    (∀ (R : Type) (pattern : OptionPattern U R) n,
       callbacks (@quiet U) (MatchOption this pattern) →
       repeatedly n (Option_match this pattern) w
         = (replicate n (run (Option_match this pattern) w).1, w)) ∧
    (∀ (R : Type) (pattern : ResultPattern U R) n,
       callbacks (@quiet U) (MatchResult this pattern) →
       repeatedly n (Result_match this pattern) w
         = (replicate n (run (Result_match this pattern) w).1, w)).
Proof.
  intros U w this o Ho. split; [|split; [|split; [|split]]].
  - intros rs Hrs w'.
    pose proof (reads_keep rs Hrs w) as Hkeep. fold w' in Hkeep.
    split; [exact Hkeep|]. split; [|split].
    + intros op. destruct (call_at (U := U) op this o) as (a & ext & Hrun).
      by rewrite (Hrun _ (Hkeep _ _ Ho)), (Hrun _ Ho).
    + intros op. apply call_frame.
    + repeat split; intros R pattern v.
      * intros ->. by apply Option_match_Some, Hkeep.
      * intros ->. by apply (Option_match_None _ v), Hkeep.
      * intros e ->. by apply (Result_match_Ok _ v e), Hkeep.
      * intros e ->. by apply (Result_match_Err _ v e), Hkeep.
  - intros rs Hrs. by apply reads_quiet.
  - intros op n. by apply (repeatedly_call w op this o).
  - intros R pattern n Hq. apply repeatedly_same.
    destruct Hq as [Hsome Hnone].
    destruct (Option_match_cases this pattern w) as [(v & _ & ->)|[->| ->]];
      [by apply Hsome | by apply Hnone | done].
  - intros R pattern n Hq. apply repeatedly_same.
    destruct Hq as [Hok Herr].
    destruct (Result_match_cases this pattern w)
      as [(v & e & _ & ->)|[(v & e & _ & ->)| ->]];
      [by apply Hok | by apply Herr | done].
Qed.

(** The theorem at work, on an instance of [Ok] holding [5].  After five
    reads, one of them a [match] whose [ok] arm throws, [ok()] still
    answers with an instance like [Some(5)]; and
    [match({ ok: (value) => value, err: () => 0 })] three times in a row
    yields [5] three times and leaves the program as it was. *)
Lemma reads_are_idempotent_and_pure_witness :
  let w : World unit :=
    {| heap := [ResultObj OkC (VNumber 5) VUndefined]; user := () |} in
  let thrower : ResultPattern unit value :=
    {| ok := λ v, throw v; err := λ e, mret e |} in
  let rs := [Call okOf 0; Call unwrapResult 0; MatchResult 0 thrower;
             Call errOf 0; Call isErr 0] in
  let p : ResultPattern unit value :=
    {| ok := λ value, mret value; err := λ _, mret (VNumber 0) |} in
  heap w !! 0 = Some (ResultObj OkC (VNumber 5) VUndefined) ∧
  (run (call okOf 0) (run (reads rs) w).2).1
    = Normal (AObject (OptionObj SomeC (VNumber 5))) ∧
  repeatedly 3 (Result_match 0 p) w
    = ([Normal (VNumber 5); Normal (VNumber 5); Normal (VNumber 5)], w).
Proof.
  intros w thrower rs p.
  destruct (reads_are_idempotent_and_pure unit w 0
              (ResultObj OkC (VNumber 5) VUndefined) eq_refl)
    as (Hreads & _ & _ & _ & Hmatch).
  split; [reflexivity|]. split.
  - assert (Forall (callbacks (@keeps_instances unit)) rs) as Hrs.
    { repeat constructor; intros v w0 l o H; exact H. }
    destruct (Hreads rs Hrs) as (_ & Hanswer & _).
    rewrite (Hanswer okOf). reflexivity.
  - assert (callbacks (@quiet unit) (MatchResult 0 p)) as Hq.
    { split; intros v w0; reflexivity. }
    rewrite (Hmatch value p 3 Hq). reflexivity.
Defined.


(** ** Further properties of the containers *)

(** On any instance of [Some] or [None], wherever it came from and whatever
    it holds, [isSome()] and [isNone()] both return, give opposite answers,
    and leave the program as it was. *)
Theorem Option_isSome_isNone_opposite :
  ∀ (U : Type) (w : World U) (this : loc) (cls : OptionClass) (v : value),
    heap w !! this = Some (OptionObj cls v) →
    ∃ b : bool,
      run (Option_isSome this) w = (Normal b, w) ∧
      run (Option_isNone this) w = (Normal (negb b), w).
Proof.
  intros U w this cls v H.
  exists (match cls with SomeC => true | NoneC => false end).
  rewrite (Option_isSome_at _ _ _ _ H), (Option_isNone_at _ _ _ _ H).
  by destruct cls.
Qed.

Lemma Option_isSome_isNone_opposite_witness :
  let w : World unit :=
    {| heap := [OptionObj NoneC VUndefined]; user := () |} in
  heap w !! 0 = Some (OptionObj NoneC VUndefined) ∧
  ∃ b : bool,
    run (Option_isSome 0) w = (Normal b, w) ∧
    run (Option_isNone 0) w = (Normal (negb b), w).
Proof.
  intros w. split; [reflexivity|].
  apply (Option_isSome_isNone_opposite unit w 0 NoneC VUndefined).
  reflexivity.
Defined.

(** On any instance of [Ok] or [Err], [isOk()] and [isErr()] both return,
    give opposite answers, and leave the program as it was. *)
Theorem Result_isOk_isErr_opposite :
  ∀ (U : Type) (w : World U) (this : loc) (cls : ResultClass) (v e : value),
    heap w !! this = Some (ResultObj cls v e) →
    ∃ b : bool,
      run (Result_isOk this) w = (Normal b, w) ∧
      run (Result_isErr this) w = (Normal (negb b), w).
Proof.
  intros U w this cls v e H.
  exists (match cls with OkC => true | ErrC => false end).
  rewrite (Result_isOk_at _ _ _ _ _ H), (Result_isErr_at _ _ _ _ _ H).
  by destruct cls.
Qed.

Lemma Result_isOk_isErr_opposite_witness :
  let w : World unit :=
    {| heap := [ResultObj ErrC VUndefined (VString "failed")]; user := () |} in
  heap w !! 0 = Some (ResultObj ErrC VUndefined (VString "failed")) ∧
  ∃ b : bool,
    run (Result_isOk 0) w = (Normal b, w) ∧
    run (Result_isErr 0) w = (Normal (negb b), w).
Proof.
  intros w. split; [reflexivity|].
  apply (Result_isOk_isErr_opposite unit w 0 ErrC VUndefined
           (VString "failed")).
  reflexivity.
Defined.

(** [isSome()] tells whether [unwrap()] is safe.  On any instance of
    [Some] or [None], [unwrap()] returns exactly when [isSome()] answers
    [true], and then it returns the field [_value]; it throws exactly when
    [isSome()] answers [false], and then what it throws is an instance of
    [Panic].  Either way the program is left as it was. *)
Theorem Option_unwrap_returns_iff_isSome :
  ∀ (U : Type) (w : World U) (this : loc) (cls : OptionClass) (v : value),
    heap w !! this = Some (OptionObj cls v) →
    ((run (Option_isSome this) w).1 = Normal true ↔
     (run (Option_unwrap this) w).1 = Normal v) ∧
    ((run (Option_isSome this) w).1 = Normal false ↔
     ∃ x, (run (Option_unwrap this) w).1 = Throw x ∧
          instanceofPanic x = true) ∧
    (run (Option_unwrap this) w).2 = w.
Proof.
  intros U w this cls v H. rewrite (Option_isSome_at _ _ _ _ H).
  destruct cls.
  - rewrite (Option_unwrap_Some _ _ _ H). cbn.
    repeat split; try done. by intros (x & ? & _).
  - rewrite (Option_unwrap_None _ _ _ H). cbn.
    repeat split; try done. intros _. by eexists.
Qed.

Lemma Option_unwrap_returns_iff_isSome_witness :
  let w : World unit :=
    {| heap := [OptionObj SomeC (VNumber 42)]; user := () |} in
  heap w !! 0 = Some (OptionObj SomeC (VNumber 42)) ∧
  ((run (Option_isSome 0) w).1 = Normal true ↔
   (run (Option_unwrap 0) w).1 = Normal (VNumber 42)).
Proof.
  intros w. split; [reflexivity|].
  apply (Option_unwrap_returns_iff_isSome unit w 0 SomeC (VNumber 42)).
  reflexivity.
Defined.

(** [isOk()] tells whether [unwrap()] is safe.  On any instance of [Ok] or
    [Err], [unwrap()] returns exactly when [isOk()] answers [true], and
    then it returns the field [_value]; it throws exactly when [isOk()]
    answers [false], and then what it throws is the field [_error], as it
    is.  Either way the program is left as it was. *)
Theorem Result_unwrap_returns_iff_isOk :
  ∀ (U : Type) (w : World U) (this : loc) (cls : ResultClass) (v e : value),
    heap w !! this = Some (ResultObj cls v e) →
    ((run (Result_isOk this) w).1 = Normal true ↔
     (run (Result_unwrap this) w).1 = Normal v) ∧
    ((run (Result_isOk this) w).1 = Normal false ↔
     (run (Result_unwrap this) w).1 = Throw e) ∧
    (run (Result_unwrap this) w).2 = w.
Proof.
  intros U w this cls v e H. rewrite (Result_isOk_at _ _ _ _ _ H).
  destruct cls.
  - rewrite (Result_unwrap_Ok _ _ _ _ H). cbn. by repeat split.
  - rewrite (Result_unwrap_Err _ _ _ _ H). cbn. by repeat split.
Qed.

Lemma Result_unwrap_returns_iff_isOk_witness :
  let w : World unit :=
    {| heap := [ResultObj ErrC VUndefined (VString "failed")]; user := () |} in
  heap w !! 0 = Some (ResultObj ErrC VUndefined (VString "failed")) ∧
  ((run (Result_isOk 0) w).1 = Normal false ↔
   (run (Result_unwrap 0) w).1 = Throw (VString "failed")).
Proof.
  intros w. split; [reflexivity|].
  apply (Result_unwrap_returns_iff_isOk unit w 0 ErrC VUndefined
           (VString "failed")).
  reflexivity.
Defined.

(** The two conversions agree with the two predicates.  On any instance of
    [Ok] or [Err], [ok().isSome()] answers what [isOk()] answers and
    [err().isSome()] answers what [isErr()] answers; so of [ok()] and
    [err()] exactly one is a [Some]. *)
Theorem conversions_agree_with_predicates :
  ∀ (U : Type) (w : World U) (this : loc) (cls : ResultClass) (v e : value),
    heap w !! this = Some (ResultObj cls v e) →
    ∃ b : bool,
      (run (Result_isOk this) w).1 = Normal b ∧
      (run (o ← Result_ok this; Option_isSome o) w).1 = Normal b ∧
      (run (o ← Result_err this; Option_isNone o) w).1 = Normal b ∧
      (run (Result_isErr this) w).1 = Normal (negb b) ∧
      (run (o ← Result_err this; Option_isSome o) w).1 = Normal (negb b) ∧
      (run (o ← Result_ok this; Option_isNone o) w).1 = Normal (negb b).
Proof.
  intros U w this cls v e H.
  exists (match cls with OkC => true | ErrC => false end).
  rewrite (Result_isOk_at _ _ _ _ _ H), (Result_isErr_at _ _ _ _ _ H).
  rewrite !run_bind, (Result_ok_at _ _ _ _ _ H), (Result_err_at _ _ _ _ _ H).
  destruct cls; repeat split;
    first [ erewrite Option_isSome_at by apply lookup_fresh
          | erewrite Option_isNone_at by apply lookup_fresh ];
    reflexivity.
Qed.

Lemma conversions_agree_with_predicates_witness :
  let w : World unit :=
    {| heap := [ResultObj OkC (VNumber (-3)) VUndefined]; user := () |} in
  heap w !! 0 = Some (ResultObj OkC (VNumber (-3)) VUndefined) ∧
  ∃ b : bool,
    (run (Result_isOk 0) w).1 = Normal b ∧
    (run (o ← Result_ok 0; Option_isSome o) w).1 = Normal b.
Proof.
  intros w. split; [reflexivity|].
  destruct (conversions_agree_with_predicates unit w 0 OkC (VNumber (-3))
              VUndefined eq_refl) as (b & H1 & H2 & _).
  exists b. split; [exact H1 | exact H2].
Defined.

(** Unwrapping after a conversion.  For every error value [e],
    [Err(e).err().unwrap()] returns [e]; and the two conversions that give
    a [None] are the way to an instance of [Panic]:
    [Err(e).ok().unwrap()] and [Ok(v).err().unwrap()] throw a [Panic],
    whatever [e] and [v] are, although [Err(e).unwrap()] throws [e]. *)
Theorem unwrap_after_conversion :
  ∀ (U : Type) (w : World U) (v e : value),
    (run (this ← new_Err e; o ← Result_err this; Option_unwrap o) w).1
      = Normal e ∧
    (∃ p : ErrorObject,
       (run (this ← new_Err e; o ← Result_ok this; Option_unwrap o) w).1
         = Throw (VErrorObj p) ∧
       (run (this ← new_Ok v; o ← Result_err this; Option_unwrap o) w).1
         = Throw (VErrorObj p) ∧
       instanceofPanic (VErrorObj p) = true ∧
       message p = "called `Option::unwrap()` on a `None` value") ∧
    (run (this ← new_Err e; Result_unwrap this) w).1 = Throw e.
Proof.
  intros U w v e. split; [by run_methods|]. split; [|by run_methods].
  exists (new_Panic "called `Option::unwrap()` on a `None` value").
  repeat split; by run_methods.
Qed.






(** ** The Panic signal *)

(** An instance of [Panic] is an [Error] that can be told from a plain
    one.  For every message, [new Panic(message)] is an instance of
    [Panic] and of [Error], is named ["Panic"] and carries the message
    unchanged, so two of them with different messages differ;
    [new Error(message)] with the same message is an [Error] and not a
    [Panic]. *)
Theorem Panic_is_a_distinguished_Error :
  ∀ msg : string,
    instanceofPanic (VErrorObj (new_Panic msg)) = true ∧
    instanceofError (VErrorObj (new_Panic msg)) = true ∧
    name (new_Panic msg) = "Panic" ∧
    message (new_Panic msg) = msg ∧
    (∀ msg', new_Panic msg = new_Panic msg' → msg = msg') ∧
    instanceofError (VErrorObj (new_Error msg)) = true ∧
    instanceofPanic (VErrorObj (new_Error msg)) = false ∧
    new_Error msg ≠ new_Panic msg.
Proof.
  intros msg. repeat split; try done. by intros msg' [= ->].
Qed.

(** ** Properties of the callers *)

Lemma run_try_catch {U A : Type} (body : M U A) (handler : value → M U A) w :
  run (try_catch body handler) w =
  match run body w with
  | (Normal a, w') => (Normal a, w')
  | (Throw x, w') => run (handler x) w'
  end.
Proof. reflexivity. Qed.

(** What [safelyHandleResult] does on a receiver that is there. *)
Lemma safelyHandleResult_at (w : World Console) result cls v e :
  heap w !! result = Some (ResultObj cls v e) →
  run (safelyHandleResult result) w =
  match cls with
  | OkC => (Normal v, w)
  | ErrC =>
      (Normal VNull,
       {| heap := heap w;
          user := user w ++ ["Result is an error, returning null"] |})
  end.
Proof.
  intros H. unfold safelyHandleResult.
  rewrite run_bind, (Result_isOk_at _ _ _ _ _ H). destruct cls.
  - by rewrite (Result_unwrap_Ok _ _ _ _ H).
  - reflexivity.
Qed.

(** [safelyHandleResult] never throws.  On any instance of [Ok] it returns
    the held value and prints nothing; on any instance of [Err], whatever
    the held error, it prints one line and returns [null].  The store is
    as before. *)
Theorem safelyHandleResult_never_throws :
  ∀ (w : World Console) (result : loc) (cls : ResultClass) (v e : value),
    heap w !! result = Some (ResultObj cls v e) →
    run (safelyHandleResult result) w =
    match cls with
    | OkC => (Normal v, w)
    | ErrC =>
        (Normal VNull,
         {| heap := heap w;
            user := user w ++ ["Result is an error, returning null"] |})
    end.
Proof.
  intros w result cls v e H. exact (safelyHandleResult_at w result cls v e H).
Qed.

Lemma safelyHandleResult_never_throws_witness :
  let w : World Console :=
    {| heap := [ResultObj ErrC VUndefined (VString "something went wrong")];
       user := [] |} in
  heap w !! 0
    = Some (ResultObj ErrC VUndefined (VString "something went wrong")) ∧
  run (safelyHandleResult 0) w =
  (Normal VNull,
   {| heap := heap w;
      user := ["Result is an error, returning null"] |}).
Proof.
  intros w. split; [reflexivity|].
  exact (safelyHandleResult_never_throws w 0 ErrC VUndefined
           (VString "something went wrong") eq_refl).
Defined.

(** The [null] that [safelyHandleResult] returns does not tell a failure
    from a success: for [Ok(null)] and for [Err(e)], whatever [e], the
    result is [null]; only the line printed in the second case differs. *)
Theorem safelyHandleResult_null_is_ambiguous :
  ∀ (w : World Console) (e : value),
    (run (r ← new_Ok VNull; safelyHandleResult r) w).1 = Normal VNull ∧
    (run (r ← new_Err e; safelyHandleResult r) w).1 = Normal VNull ∧
    user (run (r ← new_Ok VNull; safelyHandleResult r) w).2 = user w ∧
    user (run (r ← new_Err e; safelyHandleResult r) w).2
      = user w ++ ["Result is an error, returning null"].
Proof.
  intros w e.
  assert (∀ o, run (r ← alloc o; safelyHandleResult r) w
               = run (safelyHandleResult (length (heap w))) (extend w [o]))
    as Hnew by done.
  unfold new_Ok, new_Err. rewrite !Hnew.
  erewrite !safelyHandleResult_at by apply lookup_fresh.
  done.
Qed.

(** [demonstrateUnrecoverableError] prints nothing.  What
    [errorResult.unwrap()] throws is the string ['critical error'], which
    the [catch] receives; it is not an instance of [Panic], so the line
    ["Caught Panic: ..."] is never printed, and the function returns. *)
Theorem demonstrateUnrecoverableError_prints_nothing :
  ∀ w : World Console,
    (run demonstrateUnrecoverableError w).1 = Normal () ∧
    user (run demonstrateUnrecoverableError w).2 = user w ∧
    (∀ l o, heap w !! l = Some o →
            heap (run demonstrateUnrecoverableError w).2 !! l = Some o).
Proof.
  intros w.
  assert (run demonstrateUnrecoverableError w
          = (Normal (),
             extend w [ResultObj ErrC VUndefined (VString "critical error")]))
    as ->.
  { unfold demonstrateUnrecoverableError. rewrite run_try_catch.
    by run_methods. }
  repeat split. intros l o H. by apply lookup_extend.
Qed.

(** [stringToNum] never throws: whatever [parseInt] does, the caller gets a
    new [Result].  It is [Ok] of the number when [parseInt] returns one,
    [Err('Value is not a number')] when [parseInt] returns [NaN], and
    [Err('Value is none')] when [parseInt] throws; what was thrown is
    dropped. *)
Theorem stringToNum_never_throws :
  ∀ (U : Type) (parseInt : string → Z → M U number) (str : string)
    (w : World U),
    let parsed := run (parseInt str 10%Z) w in
    run (inspect (stringToNum parseInt str)) w =
    (Normal match parsed.1 with
            | Normal (Num n) => ResultObj OkC (VNumber n) VUndefined
            | Normal NaN =>
                ResultObj ErrC VUndefined (VString "Value is not a number")
            | Throw _ => ResultObj ErrC VUndefined (VString "Value is none")
            end,
     extend parsed.2
       [match parsed.1 with
        | Normal (Num n) => ResultObj OkC (VNumber n) VUndefined
        | Normal NaN =>
            ResultObj ErrC VUndefined (VString "Value is not a number")
        | Throw _ => ResultObj ErrC VUndefined (VString "Value is none")
        end]).
Proof.
  intros U parseInt str w parsed. subst parsed.
  unfold inspect, stringToNum. rewrite run_bind, run_try_catch, run_bind.
  destruct (run (parseInt str 10%Z) w) as [[[|n]|x] w1]; by run_methods.
Qed.

(** Recovering with [match]: [stringToNum(str).match({ ok: (value) =>
    value, err: () => 0 })] never throws and always yields a number, the
    parsed one when there is one and [0] in every other case, whether
    [parseInt] returned [NaN] or threw. *)
Theorem stringToNum_or_zero_yields_a_number :
  ∀ (U : Type) (parseInt : string → Z → M U number) (str : string)
    (w : World U),
    (run (stringToNum_or_zero parseInt str) w).1 =
    Normal (VNumber match (run (parseInt str 10%Z) w).1 with
                    | Normal (Num n) => n
                    | _ => 0%Z
                    end).
Proof.
  intros U parseInt str w.
  unfold stringToNum_or_zero, stringToNum.
  rewrite run_bind, run_try_catch, run_bind.
  destruct (run (parseInt str 10%Z) w) as [[[|n]|x] w1]; by run_methods.
Qed.

(** ** The arm that is not taken *)

(** [match] never runs the arm of the other variant.  On any instance, two
    patterns that agree on the arm for the receiver's class give the same
    run of [match], result and effects alike, however their other arms
    differ, be it an arm that throws or one that changes the program. *)
Theorem match_ignores_the_other_arm :
  ∀ (U R : Type) (w : World U) (this : loc) (o : object),
    heap w !! this = Some o →
    (∀ (p p' : OptionPattern U R) v,
       o = OptionObj SomeC v → some p v = some p' v →
       run (Option_match this p) w = run (Option_match this p') w) ∧
    (∀ (p p' : OptionPattern U R) v,
       o = OptionObj NoneC v → none p = none p' →
       run (Option_match this p) w = run (Option_match this p') w) ∧
    (∀ (p p' : ResultPattern U R) v e,
       o = ResultObj OkC v e → ok p v = ok p' v →
       run (Result_match this p) w = run (Result_match this p') w) ∧
    (∀ (p p' : ResultPattern U R) v e,
       o = ResultObj ErrC v e → err p e = err p' e →
       run (Result_match this p) w = run (Result_match this p') w).
Proof.
  intros U R w this o H. repeat split.
  - intros p p' v -> Harm.
    by rewrite !(Option_match_Some _ _ _ _ H), Harm.
  - intros p p' v -> Harm.
    by rewrite !(Option_match_None _ _ _ _ H), Harm.
  - intros p p' v e -> Harm.
    by rewrite !(Result_match_Ok _ _ _ _ _ H), Harm.
  - intros p p' v e -> Harm.
    by rewrite !(Result_match_Err _ _ _ _ _ H), Harm.
Qed.

(** The theorem at work: on an instance of [Some], a [none] arm that
    throws is as good as one that returns. *)
Lemma match_ignores_the_other_arm_witness :
  let w : World unit :=
    {| heap := [OptionObj SomeC (VNumber 10)]; user := () |} in
  let p : OptionPattern unit value :=
    {| some := λ v, mret v; none := mret (VNumber 0) |} in
  let p' : OptionPattern unit value :=
    {| some := λ v, mret v; none := throw (VString "absent") |} in
  heap w !! 0 = Some (OptionObj SomeC (VNumber 10)) ∧
  run (Option_match 0 p) w = run (Option_match 0 p') w.
Proof.
  intros w p p'. split; [reflexivity|].
  exact (proj1 (match_ignores_the_other_arm unit value w 0
                  (OptionObj SomeC (VNumber 10)) eq_refl)
           p p' (VNumber 10) eq_refl eq_refl).
Defined.
